(** * LocationService: the live-location register of the food delivery app

    A shallow embedding of [LocationService/app/main.py]: the pydantic
    models [GeoPoint], [LocationUpdate] and [LocationSnapshot], the
    validation FastAPI runs on a request body before it calls a handler,
    the in-memory store [_LOCATION_STORE] and the three route handlers.
    The store is threaded explicitly: a handler takes the store and
    returns its result together with the store it leaves behind. *)

From Stdlib Require Import ZArith QArith Floats.SpecFloat.
From stdpp Require Import base option list strings gmap.

Local Open Scope string_scope.
Local Open Scope list_scope.
Local Open Scope Z_scope.

(** ** Python values used by the service *)

(** A Python [float] is an IEEE-754 double: a signed zero, a signed
    infinity, NaN, or a finite [(-1)^s * m * 2^e]. *)
Abbreviation float := spec_float.

Module PyFloat.

Definition of_Z (n : Z) : float :=
  match n with
  | Z0 => S754_zero false
  | Zpos p => S754_finite false p 0
  | Zneg p => S754_finite true p 0
  end.

(** The number a float stands for; infinities and NaN stand for none. *)
Definition to_Q (x : float) : option Q :=
  match x with
  | S754_zero _ => Some (0 # 1)
  | S754_finite s m e =>
      let v := if s then Zneg m else Zpos m in
      Some (match e with
            | Zneg p => Qmake v (2 ^ p)
            | _ => Qmake (v * 2 ^ e) 1
            end)
  | S754_infinity _ | S754_nan => None
  end.

(** Comparison of a float with a Python [int] literal, the only
    comparisons the service makes ([ge=-90], [le=90], [ge=0],
    [speed_mps <= 0]).  Python compares the two exactly, by value; NaN
    is unordered, so every comparison with it is false. *)
Definition compare_int (x : float) (n : Z) : option comparison :=
  match x with
  | S754_nan => None
  | S754_infinity s => Some (if s then Lt else Gt)
  | S754_zero _ => Some (0 ?= n)
  | S754_finite s m e =>
      let v := if s then Zneg m else Zpos m in
      Some (if 0 <=? e then v * 2 ^ e ?= n else v ?= n * 2 ^ (- e))
  end.

(** [x >= n] *)
Definition ge_int (x : float) (n : Z) : bool :=
  match compare_int x n with
  | Some Gt | Some Eq => true
  | _ => false
  end.

(** [x <= n] *)
Definition le_int (x : float) (n : Z) : bool :=
  match compare_int x n with
  | Some Lt | Some Eq => true
  | _ => false
  end.

(** [x > n] *)
Definition gt_int (x : float) (n : Z) : bool :=
  match compare_int x n with
  | Some Gt => true
  | _ => false
  end.

(** [x == n] *)
Definition eq_int (x : float) (n : Z) : bool :=
  match compare_int x n with
  | Some Eq => true
  | _ => false
  end.

End PyFloat.

(** Exceptions that are not validation errors. *)
Inductive exn := OverflowError.

(** [datetime.datetime].  The calendar fields of a datetime are its clock
    reading; [wall] is that reading counted in microseconds from
    0001-01-01T00:00:00, the way the library does its own arithmetic.
    [tzinfo] is [None] for a naive datetime and the UTC offset, a
    [timedelta] in microseconds, for an aware one. *)
Module PyDatetime.

Definition timedelta := Z.

Record datetime := mk { wall : Z; tzinfo : option timedelta }.

(** [timezone.utc] *)
Definition utc : timedelta := 0.

Definition _is_leap (year : Z) : bool :=
  (year mod 4 =? 0) && (negb (year mod 100 =? 0) || (year mod 400 =? 0)).

Definition _days_before_year (year : Z) : Z :=
  let y := year - 1 in y * 365 + y / 4 - y / 100 + y / 400.

Definition _DAYS_IN_MONTH : list Z :=
  [31; 28; 31; 30; 31; 30; 31; 31; 30; 31; 30; 31].

Definition _days_before_month (year month : Z) : Z :=
  foldr Z.add 0 (take (Z.to_nat (month - 1)) _DAYS_IN_MONTH)
  + (if (2 <? month) && _is_leap year then 1 else 0).

Definition _ymd2ord (year month day : Z) : Z :=
  _days_before_year year + _days_before_month year month + day.

Definition us_per_day : Z := 86400 * 1000000.

(** The clock reading of [year-month-day T hour:minute:second.us]. *)
Definition clock (year month day hour minute second us : Z) : Z :=
  (_ymd2ord year month day - 1) * us_per_day
  + ((hour * 60 + minute) * 60 + second) * 1000000 + us.

(** [datetime.min] and [datetime.max] *)
Definition MINWALL : Z := clock 1 1 1 0 0 0 0.
Definition MAXWALL : Z := clock 9999 12 31 23 59 59 999999.

Definition in_range (w : Z) : bool := (MINWALL <=? w) && (w <=? MAXWALL).

(** [v.replace(tzinfo=tz)]: the clock reading is kept as it is. *)
Definition replace_tzinfo (v : datetime) (tz : option timedelta) : datetime :=
  {| wall := wall v; tzinfo := tz |}.

(** [v + d]; raises [OverflowError] when the result leaves
    [datetime.min .. datetime.max]. *)
Definition add (v : datetime) (d : timedelta) : exn + datetime :=
  let w := wall v + d in
  if in_range w then inr {| wall := w; tzinfo := tzinfo v |}
  else inl OverflowError.

(** [v.astimezone(tz)] for an aware [v] of offset [off]:
    [tz.fromutc((v - off).replace(tzinfo=tz))]. *)
Definition astimezone (off : timedelta) (v : datetime) (tz : timedelta)
  : exn + datetime :=
  match add v (- off) with
  | inl e => inl e
  | inr u => add (replace_tzinfo u (Some tz)) tz
  end.

(** The instant an aware datetime denotes, as a UTC clock reading. *)
Definition instant (v : datetime) : option Z :=
  match tzinfo v with
  | None => None
  | Some off => Some (wall v - off)
  end.

End PyDatetime.

(** ** The models *)

(** An error of one field, as pydantic reports it: where, and which
    constraint failed. *)
Inductive error_type :=
| value_error_missing
| value_error_number_not_ge (limit_value : Z)
| value_error_number_not_le (limit_value : Z).

Record ErrorWrapper := { loc : list string; exc : error_type }.

(** The outcome of validating one field or one model: the value, or the
    errors collected for it. *)
Definition validated (A : Type) : Type := (list ErrorWrapper + A)%type.

Definition errors_of {A} (r : validated A) : list ErrorWrapper :=
  match r with
  | inl errs => errs
  | inr _ => []
  end.

(** [Field(..., ...)]: the field is required. *)
Definition required {A B} (loc : list string) (check : A → validated B)
    (v : option A) : validated B :=
  match v with
  | None => inl [ {| loc := loc; exc := value_error_missing |} ]
  | Some a => check a
  end.

(** [Optional[...] = Field(None, ...)]: an absent value stays [None]. *)
Definition optional {A B} (check : A → validated B) (v : option A)
    : validated (option B) :=
  match v with
  | None => inr None
  | Some a =>
      match check a with
      | inl errs => inl errs
      | inr b => inr (Some b)
      end
  end.

(** The [ge] and [le] constraints of a number: a bound fails when the
    comparison with it is not true. *)
Definition check_ge (ge : option Z) (v : float) : option error_type :=
  match ge with
  | Some g => if PyFloat.ge_int v g then None else Some (value_error_number_not_ge g)
  | None => None
  end.

Definition check_le (le : option Z) (v : float) : option error_type :=
  match le with
  | Some l => if PyFloat.le_int v l then None else Some (value_error_number_not_le l)
  | None => None
  end.

(** A constrained float field: [ge] is checked before [le], and the first
    bound that fails is the error of the field. *)
Definition number_size (loc : list string) (ge le : option Z) (v : float)
    : validated float :=
  match check_ge ge v with
  | Some e => inl [ {| loc := loc; exc := e |} ]
  | None =>
      match check_le le v with
      | Some e => inl [ {| loc := loc; exc := e |} ]
      | None => inr v
      end
  end.

(** A field with no constraint of its own. *)
Definition unconstrained {A} (v : A) : validated A := inr v.

(** The request body of [POST /location/updates] after JSON decoding and
    type coercion: every key may be absent. *)
Module Body.

Record GeoPoint := mkGeoPoint {
  lat : option float;
  lng : option float
}.

Record LocationUpdate := mk {
  orderId : option string;
  courierId : option string;
  position : option GeoPoint;
  bearing : option float;
  speedMps : option float;
  timestamp : option PyDatetime.datetime
}.

End Body.

Module GeoPoint.

Record t := mk { lat : float; lng : float }.

Definition validate (loc : list string) (raw : Body.GeoPoint) : validated t :=
  let r_lat :=
    required (loc ++ ["lat"]) (number_size (loc ++ ["lat"]) (Some (-90)) (Some 90))
      (Body.lat raw) in
  let r_lng :=
    required (loc ++ ["lng"]) (number_size (loc ++ ["lng"]) (Some (-180)) (Some 180))
      (Body.lng raw) in
  match r_lat, r_lng with
  | inr a, inr b => inr {| lat := a; lng := b |}
  | _, _ => inl (errors_of r_lat ++ errors_of r_lng)
  end.

End GeoPoint.

(** The result of building a model from a request body. *)
Inductive validation (A : Type) :=
| Valid (a : A)
| Invalid (errs : list ErrorWrapper)
| Raised (e : exn).
Arguments Valid {A} a.
Arguments Invalid {A} errs.
Arguments Raised {A} e.

Module LocationUpdate.

Record t := mk {
  orderId : string;
  courierId : string;
  position : GeoPoint.t;
  bearing : option float;
  speedMps : option float;
  timestamp : PyDatetime.datetime
}.

(** The [timestamp] validator. *)
Definition ensure_timezone (v : PyDatetime.datetime) : exn + PyDatetime.datetime :=
  match PyDatetime.tzinfo v with
  | None => inr (PyDatetime.replace_tzinfo v (Some PyDatetime.utc))
  | Some off => PyDatetime.astimezone off v PyDatetime.utc
  end.

(** Validation of the model.  The fields are validated in the order of
    their declaration and their errors are collected; an exception of the
    [timestamp] validator that is not a validation error ends the
    validation at once. *)
Definition validate (raw : Body.LocationUpdate) : validation t :=
  let r_orderId := required ["body"; "orderId"] unconstrained (Body.orderId raw) in
  let r_courierId := required ["body"; "courierId"] unconstrained (Body.courierId raw) in
  let r_position :=
    required ["body"; "position"] (GeoPoint.validate ["body"; "position"])
      (Body.position raw) in
  let r_bearing := optional unconstrained (Body.bearing raw) in
  let r_speedMps :=
    optional (number_size ["body"; "speedMps"] (Some 0) None) (Body.speedMps raw) in
  let r_timestamp :=
    match Body.timestamp raw with
    | None => inr (inl [ {| loc := ["body"; "timestamp"]; exc := value_error_missing |} ])
    | Some v =>
        match ensure_timezone v with
        | inl e => inl e
        | inr v' => inr (inr v')
        end
    end in
  match r_timestamp with
  | inl e => Raised e
  | inr r_timestamp =>
      match r_orderId, r_courierId, r_position, r_bearing, r_speedMps, r_timestamp with
      | inr o, inr c, inr p, inr b, inr s, inr ts =>
          Valid {| orderId := o; courierId := c; position := p;
                   bearing := b; speedMps := s; timestamp := ts |}
      | _, _, _, _, _, _ =>
          Invalid (errors_of r_orderId ++ errors_of r_courierId
                   ++ errors_of r_position ++ errors_of r_bearing
                   ++ errors_of r_speedMps ++ errors_of r_timestamp)
      end
  end.

End LocationUpdate.

Module LocationSnapshot.

Record t := mk {
  position : GeoPoint.t;
  timestamp : PyDatetime.datetime;
  etaMinutes : option Z
}.

End LocationSnapshot.

(** ** The application *)

(** In-memory store: orderId -> LocationSnapshot *)
Abbreviation store := (gmap string LocationSnapshot.t).

Definition _LOCATION_STORE : store := ∅.

Definition _estimate_eta_minutes (speed_mps : option float) : option Z :=
  match speed_mps with
  | None => None
  | Some v => if PyFloat.le_int v 0 then None else Some 10
  end.

(** [POST /location/updates], called with the validated model. *)
Definition post_location_update (update : LocationUpdate.t) (st : store)
    : list (string * string) * store :=
  let snapshot :=
    {| LocationSnapshot.position := LocationUpdate.position update;
       LocationSnapshot.timestamp := LocationUpdate.timestamp update;
       LocationSnapshot.etaMinutes :=
         _estimate_eta_minutes (LocationUpdate.speedMps update) |} in
  ([("status", "accepted")], <[LocationUpdate.orderId update := snapshot]> st).

Module HTTPException.
Record t := mk { status_code : Z; detail : string }.
End HTTPException.

(** [GET /location/track/{orderId}].  [_LOCATION_STORE.get(orderId)] is
    [None] or a stored model; a model object is always true, so
    [not snapshot] holds exactly for [None]. *)
Definition get_latest_location (orderId : string) (st : store)
    : (HTTPException.t + LocationSnapshot.t) * store :=
  let snapshot := st !! orderId in
  match snapshot with
  | None =>
      (inl {| HTTPException.status_code := 404;
              HTTPException.detail := "Location not found for orderId" |}, st)
  | Some s => (inr s, st)
  end.

(** [GET /] *)
Definition root (st : store) : list (string * string) * store :=
  ([("service", "LocationService"); ("status", "ok")], st).

(** What a response carries. *)
Inductive content :=
| JSONObject (kv : list (string * string))
| JSONSnapshot (s : LocationSnapshot.t)
| JSONDetail (detail : string)
| JSONValidationErrors (errs : list ErrorWrapper)
| InternalServerError.

Record Response := { status_code : Z; body : content }.

Inductive request :=
| POST_location_updates (raw : Body.LocationUpdate)
| GET_location_track (orderId : string)
| GET_root.

(** The routes: the body of a POST is validated before the handler runs; a
    validation error is answered with 422, an [HTTPException] with its own
    status code, any other exception with 500. *)
Definition app (req : request) (st : store) : Response * store :=
  match req with
  | POST_location_updates raw =>
      match LocationUpdate.validate raw with
      | Valid update =>
          let '(r, st') := post_location_update update st in
          ({| status_code := 202; body := JSONObject r |}, st')
      | Invalid errs =>
          ({| status_code := 422; body := JSONValidationErrors errs |}, st)
      | Raised _ =>
          ({| status_code := 500; body := InternalServerError |}, st)
      end
  | GET_location_track orderId =>
      match get_latest_location orderId st with
      | (inl e, st') =>
          ({| status_code := HTTPException.status_code e;
              body := JSONDetail (HTTPException.detail e) |}, st')
      | (inr s, st') => ({| status_code := 200; body := JSONSnapshot s |}, st')
      end
  | GET_root =>
      let '(r, st') := root st in
      ({| status_code := 200; body := JSONObject r |}, st')
  end.

(** The store after a sequence of requests, served one after the other. *)
Fixpoint run (reqs : list request) (st : store) : store :=
  match reqs with
  | [] => st
  | req :: reqs' => run reqs' (app req st).2
  end.

(** The states the process can be in: it starts with the empty store, and
    every request takes it from one state to the next. *)
Inductive reachable : store → Prop :=
| reachable_init : reachable _LOCATION_STORE
| reachable_step req st : reachable st → reachable (app req st).2.

(** The snapshot [post_location_update] builds from an update. *)
Definition built_snapshot (update : LocationUpdate.t) : LocationSnapshot.t :=
  {| LocationSnapshot.position := LocationUpdate.position update;
     LocationSnapshot.timestamp := LocationUpdate.timestamp update;
     LocationSnapshot.etaMinutes :=
       _estimate_eta_minutes (LocationUpdate.speedMps update) |}.

(** The declared range of a coordinate: [lo <= v <= hi]. *)
Definition within (lo hi : Z) (v : float) : bool :=
  PyFloat.ge_int v lo && PyFloat.le_int v hi.

(** The declared bound of the optional speed: [0 <= v] when it is given. *)
Definition speed_ok (speedMps : option float) : bool :=
  match speedMps with
  | None => true
  | Some v => PyFloat.ge_int v 0
  end.

(** The responses of the two routes. *)
Definition accepted : Response :=
  {| status_code := 202; body := JSONObject [("status", "accepted")] |}.

Definition not_found : Response :=
  {| status_code := 404; body := JSONDetail "Location not found for orderId" |}.

Definition ok (s : LocationSnapshot.t) : Response :=
  {| status_code := 200; body := JSONSnapshot s |}.

Definition unprocessable (errs : list ErrorWrapper) : Response :=
  {| status_code := 422; body := JSONValidationErrors errs |}.

(** [get_app()]: the factory hands out the one application instance. *)
Definition get_app : request → store → Response * store := app.

(** ** Notions the properties of the register are stated with *)

(** The update of order [k] that arrived last among [reqs] and passed
    validation; [acc] when there is none. *)
Fixpoint last_update (k : string) (reqs : list request)
    (acc : option LocationUpdate.t) : option LocationUpdate.t :=
  match reqs with
  | [] => acc
  | POST_location_updates raw :: reqs' =>
      match LocationUpdate.validate raw with
      | Valid u =>
          if decide (LocationUpdate.orderId u = k)
          then last_update k reqs' (Some u)
          else last_update k reqs' acc
      | _ => last_update k reqs' acc
      end
  | _ :: reqs' => last_update k reqs' acc
  end.

(** How many of the requests are submissions. *)
Fixpoint submissions (reqs : list request) : nat :=
  match reqs with
  | [] => O
  | POST_location_updates _ :: reqs' => S (submissions reqs')
  | _ :: reqs' => submissions reqs'
  end.

(** The float stands for a number, and the number lies in [lo, hi]. *)
Definition in_bounds (lo hi : Z) (v : float) : Prop :=
  ∃ q, PyFloat.to_Q v = Some q ∧ Qle (inject_Z lo) q ∧ Qle q (inject_Z hi).

(** What every stored snapshot looks like. *)
Definition well_formed (s : LocationSnapshot.t) : Prop :=
  in_bounds (-90) 90 (GeoPoint.lat (LocationSnapshot.position s))
  ∧ in_bounds (-180) 180 (GeoPoint.lng (LocationSnapshot.position s))
  ∧ PyDatetime.tzinfo (LocationSnapshot.timestamp s) = Some PyDatetime.utc
  ∧ (LocationSnapshot.etaMinutes s = None ∨ LocationSnapshot.etaMinutes s = Some 10).

(** The body [raw] sent by another courier, with another bearing. *)
Definition resent (raw : Body.LocationUpdate) (courierId : string)
    (bearing : option float) : Body.LocationUpdate :=
  {| Body.orderId := Body.orderId raw;
     Body.courierId := Some courierId;
     Body.position := Body.position raw;
     Body.bearing := bearing;
     Body.speedMps := Body.speedMps raw;
     Body.timestamp := Body.timestamp raw |}.

(** ** The request body as JSON *)

(** A JSON number as the decoder hands it over: a float, or an integer of
    any size. *)
Inductive number :=
| Float (x : float)
| Int (n : Z).

(** [float(n)] for an integer [n]: the nearest double, ties to even.  An
    integer whose nearest double would lie beyond the largest one raises
    [OverflowError]. *)
Definition float_of_int (n : Z) : exn + float :=
  match binary_normalize 53 1024 n 0 false with
  | S754_infinity _ => inl OverflowError
  | x => inr x
  end.

(** The coercion of a float field, [float(v)].  Its [OverflowError] is not
    a validation error. *)
Definition float_validator (v : number) : exn + float :=
  match v with
  | Float x => inr x
  | Int n => float_of_int n
  end.

(** The coercion of a float field that may be absent. *)
Definition coerce_float (v : option number) : exn + option float :=
  match v with
  | None => inr None
  | Some n =>
      match float_validator n with
      | inl e => inl e
      | inr x => inr (Some x)
      end
  end.

(** The request body of [POST /location/updates] after JSON decoding,
    before the coercion of its numbers. *)
Module Json.

Record GeoPoint := mkGeoPoint {
  lat : option number;
  lng : option number
}.

Record LocationUpdate := mk {
  orderId : option string;
  courierId : option string;
  position : option GeoPoint;
  bearing : option number;
  speedMps : option number;
  timestamp : option PyDatetime.datetime
}.

End Json.

Definition coerce_GeoPoint (g : Json.GeoPoint) : exn + Body.GeoPoint :=
  match coerce_float (Json.lat g) with
  | inl e => inl e
  | inr la =>
      match coerce_float (Json.lng g) with
      | inl e => inl e
      | inr ln => inr {| Body.lat := la; Body.lng := ln |}
      end
  end.

(** The coercion of the numbers of a body.  Each float field is coerced
    when the field is validated; an exception raised by a coercion is not
    a validation error, so it is not caught and ends the request whatever
    the other fields are.  The answer is therefore the same as when all
    the coercions come first, which is how they are written here. *)
Definition coerce (json : Json.LocationUpdate) : exn + Body.LocationUpdate :=
  match
    match Json.position json with
    | None => inr None
    | Some g =>
        match coerce_GeoPoint g with
        | inl e => inl e
        | inr g' => inr (Some g')
        end
    end
  with
  | inl e => inl e
  | inr p =>
      match coerce_float (Json.bearing json) with
      | inl e => inl e
      | inr b =>
          match coerce_float (Json.speedMps json) with
          | inl e => inl e
          | inr s =>
              inr {| Body.orderId := Json.orderId json;
                     Body.courierId := Json.courierId json;
                     Body.position := p;
                     Body.bearing := b;
                     Body.speedMps := s;
                     Body.timestamp := Json.timestamp json |}
          end
      end
  end.

(** [POST /location/updates] with a decoded body: an exception that is not
    a validation error is answered with 500. *)
Definition submit (json : Json.LocationUpdate) (st : store) : Response * store :=
  match coerce json with
  | inl _ => ({| status_code := 500; body := InternalServerError |}, st)
  | inr raw => app (POST_location_updates raw) st
  end.

(** The number lies in [lo, hi]; for a float this is [within]. *)
Definition number_within (lo hi : Z) (v : number) : bool :=
  match v with
  | Float x => within lo hi x
  | Int n => (lo <=? n) && (n <=? hi)
  end.

(** The field is absent, or its number is coerced to a float. *)
Definition converts (v : option number) : Prop :=
  ∃ x, coerce_float v = inr x.


(** The JSON body [json] sent by another courier, with another bearing. *)
Definition resent_json (json : Json.LocationUpdate) (courierId : string)
    (bearing : option number) : Json.LocationUpdate :=
  {| Json.orderId := Json.orderId json;
     Json.courierId := Some courierId;
     Json.position := Json.position json;
     Json.bearing := bearing;
     Json.speedMps := Json.speedMps json;
     Json.timestamp := Json.timestamp json |}.

(** ** Sample requests *)

Module Sample.

(** 12.9 and 77.6 as doubles *)
Definition f12_9 : float := S754_finite false 7262054399134925 (-49).
Definition f77_6 : float := S754_finite false 5460614548186726 (-46).

Definition at_utc (year month day hour minute second : Z) : PyDatetime.datetime :=
  {| PyDatetime.wall := PyDatetime.clock year month day hour minute second 0;
     PyDatetime.tzinfo := Some PyDatetime.utc |}.

Definition naive (year month day hour minute second : Z) : PyDatetime.datetime :=
  {| PyDatetime.wall := PyDatetime.clock year month day hour minute second 0;
     PyDatetime.tzinfo := None |}.

Definition hours (h : Z) : PyDatetime.timedelta := h * 3600 * 1000000.

Definition body (orderId : string) (lat lng : float) (speedMps : option float)
    (timestamp : PyDatetime.datetime) : Body.LocationUpdate :=
  {| Body.orderId := Some orderId;
     Body.courierId := Some "C1";
     Body.position := Some {| Body.lat := Some lat; Body.lng := Some lng |};
     Body.bearing := None;
     Body.speedMps := speedMps;
     Body.timestamp := Some timestamp |}.

Definition update (orderId : string) (lat lng : float) (speedMps : option float)
    (timestamp : PyDatetime.datetime) : LocationUpdate.t :=
  {| LocationUpdate.orderId := orderId;
     LocationUpdate.courierId := "C1";
     LocationUpdate.position := {| GeoPoint.lat := lat; GeoPoint.lng := lng |};
     LocationUpdate.bearing := None;
     LocationUpdate.speedMps := speedMps;
     LocationUpdate.timestamp := timestamp |}.

(** The scenario of the specification:
    [{orderId:"O1", courierId:"C1", position:{lat:12.9,lng:77.6},
      timestamp:"2024-05-01T10:00:00Z"}] *)
Definition raw_O1 : Body.LocationUpdate :=
  body "O1" f12_9 f77_6 None (at_utc 2024 5 1 10 0 0).
Definition upd_O1 : LocationUpdate.t :=
  update "O1" f12_9 f77_6 None (at_utc 2024 5 1 10 0 0).

(** A later sample of the same order, moving at 5 m/s. *)
Definition raw_O1_moving : Body.LocationUpdate :=
  body "O1" (PyFloat.of_Z 13) (PyFloat.of_Z 78) (Some (PyFloat.of_Z 5))
    (at_utc 2024 5 1 10 5 0).
Definition upd_O1_moving : LocationUpdate.t :=
  update "O1" (PyFloat.of_Z 13) (PyFloat.of_Z 78) (Some (PyFloat.of_Z 5))
    (at_utc 2024 5 1 10 5 0).

(** Standing still: speed 0. *)
Definition raw_O1_still : Body.LocationUpdate :=
  body "O1" f12_9 f77_6 (Some (PyFloat.of_Z 0)) (at_utc 2024 5 1 10 0 0).

(** Another order, stamped with a naive clock reading. *)
Definition raw_O2_naive : Body.LocationUpdate :=
  body "O2" (PyFloat.of_Z 90) (PyFloat.of_Z 180) None (naive 2024 1 1 0 0 0).
Definition upd_O2 : LocationUpdate.t :=
  update "O2" (PyFloat.of_Z 90) (PyFloat.of_Z 180) None (at_utc 2024 1 1 0 0 0).

(** The same instant as [raw_O1], read on a clock five and a half hours
    ahead of UTC. *)
Definition raw_O1_ist : Body.LocationUpdate :=
  body "O1" f12_9 f77_6 None
    {| PyDatetime.wall := PyDatetime.clock 2024 5 1 15 30 0 0;
       PyDatetime.tzinfo := Some (hours 5 + hours 1 / 2) |}.

(** Out of range. *)
Definition raw_lat_91 : Body.LocationUpdate :=
  body "O1" (PyFloat.of_Z 91) f77_6 None (at_utc 2024 5 1 10 0 0).
Definition raw_lng_181 : Body.LocationUpdate :=
  body "O1" f12_9 (PyFloat.of_Z 181) None (at_utc 2024 5 1 10 0 0).
Definition raw_speed_negative : Body.LocationUpdate :=
  body "O1" f12_9 f77_6 (Some (PyFloat.of_Z (-1))) (at_utc 2024 5 1 10 0 0).

(** The first minute of year 1, read on a clock five hours ahead of UTC:
    its UTC reading would lie before [datetime.min]. *)
Definition before_min : PyDatetime.datetime :=
  {| PyDatetime.wall := PyDatetime.clock 1 1 1 0 0 0 0;
     PyDatetime.tzinfo := Some (hours 5) |}.

(** 91, 90 and 180 as doubles *)
Definition f91 : float := S754_finite false 6403555720167424 (-46).
Definition f90 : float := S754_finite false 6333186975989760 (-46).
Definition f180 : float := S754_finite false 6333186975989760 (-45).

Definition json (orderId : string) (lat lng : number) (bearing speedMps : option number)
    (timestamp : PyDatetime.datetime) : Json.LocationUpdate :=
  {| Json.orderId := Some orderId;
     Json.courierId := Some "C1";
     Json.position := Some {| Json.lat := Some lat; Json.lng := Some lng |};
     Json.bearing := bearing;
     Json.speedMps := speedMps;
     Json.timestamp := Some timestamp |}.

(** Latitude 91, written as a JSON integer. *)
Definition json_lat_91 : Json.LocationUpdate :=
  json "O1" (Int 91) (Float f77_6) None None (at_utc 2024 5 1 10 0 0).

(** Latitude 91 with a timestamp that has no UTC reading. *)
Definition json_lat_91_before_min : Json.LocationUpdate :=
  json "O1" (Float f91) (Float f77_6) None None before_min.

(** Latitude 10^400: an integer beyond the doubles. *)
Definition json_lat_huge : Json.LocationUpdate :=
  json "O1" (Int (10 ^ 400)) (Float f77_6) None None (at_utc 2024 5 1 10 0 0).

(** Everything valid but a bearing of 10^400. *)
Definition json_bearing_huge : Json.LocationUpdate :=
  json "O1" (Float f12_9) (Float f77_6) (Some (Int (10 ^ 400))) None
    (at_utc 2024 5 1 10 0 0).

(** The ends of the ranges, written as JSON integers, at speed 0. *)
Definition json_ends : Json.LocationUpdate :=
  json "O2" (Int 90) (Int 180) None (Some (Int 0)) (at_utc 2024 5 1 10 0 0).

(** The scenario of the specification as JSON. *)
Definition json_O1 : Json.LocationUpdate :=
  json "O1" (Float f12_9) (Float f77_6) None None (at_utc 2024 5 1 10 0 0).

End Sample.

(** ** Comparisons with an integer *)

Section Comparisons.

Variable v : float.

Lemma ge_le_eq n :
  PyFloat.ge_int v n = true → PyFloat.le_int v n = PyFloat.eq_int v n.
Proof.
  unfold PyFloat.ge_int, PyFloat.le_int, PyFloat.eq_int.
  destruct (PyFloat.compare_int v n) as [[]|]; done.
Qed.

Lemma ge_not_le_gt n :
  PyFloat.ge_int v n = true → negb (PyFloat.le_int v n) = PyFloat.gt_int v n.
Proof.
  unfold PyFloat.ge_int, PyFloat.le_int, PyFloat.gt_int.
  destruct (PyFloat.compare_int v n) as [[]|]; done.
Qed.

(** [compare_int] compares the number the float stands for. *)
Lemma compare_int_exact q n :
  PyFloat.to_Q v = Some q →
  PyFloat.compare_int v n = Some (Qcompare q (inject_Z n)).
Proof.
  destruct v as [s|s| |s m e]; try done; intros [= <-]; unfold PyFloat.compare_int.
  - unfold Qcompare. simpl. f_equal. by rewrite Z.mul_1_r.
  - f_equal. unfold Qcompare, inject_Z. cbn [Qnum Qden].
    destruct e as [|p|p].
    + simpl (0 <=? 0). cbv iota. cbn [Qnum Qden]. by rewrite !Z.mul_1_r.
    + replace (0 <=? Z.pos p) with true by (symmetry; apply Z.leb_le; lia).
      cbn [Qnum Qden]. by rewrite !Z.mul_1_r.
    + replace (0 <=? Z.neg p) with false by (symmetry; apply Z.leb_gt; lia).
      cbn [Qnum Qden]. rewrite Z.mul_1_r. do 2 f_equal.
      by rewrite Pos2Z.inj_pow.
Qed.


End Comparisons.

(** ** What validation lets through *)

Lemma number_size_inr loc ge le v v' :
  number_size loc ge le v = inr v' →
  v' = v ∧ check_ge ge v = None ∧ check_le le v = None.
Proof.
  unfold number_size.
  destruct (check_ge ge v); [done|]. destruct (check_le le v); [done|].
  by intros [= <-].
Qed.

Lemma number_size_ok loc ge le v :
  check_ge ge v = None → check_le le v = None → number_size loc ge le v = inr v.
Proof. unfold number_size. by intros -> ->. Qed.

Lemma check_ge_Some g v : check_ge (Some g) v = None ↔ PyFloat.ge_int v g = true.
Proof. simpl. by destruct (PyFloat.ge_int v g). Qed.

Lemma check_le_Some l v : check_le (Some l) v = None ↔ PyFloat.le_int v l = true.
Proof. simpl. by destruct (PyFloat.le_int v l). Qed.

Lemma coordinate_ok loc lo hi v :
  within lo hi v = true → number_size loc (Some lo) (Some hi) v = inr v.
Proof.
  unfold within. intros [H1 H2]%andb_true_iff.
  apply number_size_ok; [by apply check_ge_Some | by apply check_le_Some].
Qed.

Lemma coordinate_bad loc lo hi v :
  within lo hi v = false →
  ∃ e, number_size loc (Some lo) (Some hi) v = inl [ {| loc := loc; exc := e |} ].
Proof.
  unfold within, number_size. simpl.
  destruct (PyFloat.ge_int v lo); simpl; [|eauto].
  intros ->. eauto.
Qed.

Lemma GeoPoint_validate_inr loc raw p :
  GeoPoint.validate loc raw = inr p →
  ∃ la ln, raw = Body.mkGeoPoint (Some la) (Some ln)
           ∧ p = GeoPoint.mk la ln
           ∧ within (-90) 90 la = true ∧ within (-180) 180 ln = true.
Proof.
  destruct raw as [[la|] [ln|]]; unfold GeoPoint.validate; simpl;
    repeat case_match; try done.
  intros [= <-].
  repeat match goal with
         | H : number_size _ _ _ _ = inr _ |- _ =>
             apply number_size_inr in H as (-> & ?%check_ge_Some & ?%check_le_Some)
         end.
  exists la, ln. unfold within. by repeat split; try apply andb_true_iff.
Qed.

Lemma validate_Valid_inv raw u :
  LocationUpdate.validate raw = Valid u →
  Body.orderId raw = Some (LocationUpdate.orderId u)
  ∧ Body.courierId raw = Some (LocationUpdate.courierId u)
  ∧ (∃ p, Body.position raw = Some p
          ∧ GeoPoint.validate ["body"; "position"] p = inr (LocationUpdate.position u))
  ∧ Body.bearing raw = LocationUpdate.bearing u
  ∧ Body.speedMps raw = LocationUpdate.speedMps u
  ∧ (∀ v, Body.speedMps raw = Some v → PyFloat.ge_int v 0 = true)
  ∧ (∃ ts, Body.timestamp raw = Some ts
           ∧ LocationUpdate.ensure_timezone ts = inr (LocationUpdate.timestamp u)).
Proof.
  destruct raw as [o c p b s t]. unfold LocationUpdate.validate. simpl.
  destruct t as [ts|]; [destruct (LocationUpdate.ensure_timezone ts) eqn:Hts; [done|] |].
  - destruct o, c, p as [p|], b, s as [v|]; simpl; try done;
      destruct (GeoPoint.validate _ p) eqn:Hp; try done;
      try (destruct (number_size _ _ _ v) eqn:Hv; try done;
           apply number_size_inr in Hv as (-> & ?%check_ge_Some & _));
      intros [= <-]; simpl; repeat split; eauto; by intros ? [= <-].
  - destruct o, c, p as [p|], b, s as [v|]; simpl; try done;
      try destruct (GeoPoint.validate _ p); try done;
      try destruct (number_size _ _ _ v); done.
Qed.

(** ** How the routes answer *)

Lemma post_location_update_builds update st :
  post_location_update update st
  = ([("status", "accepted")],
     <[LocationUpdate.orderId update := built_snapshot update]> st).
Proof. reflexivity. Qed.

Lemma app_post_valid raw u st :
  LocationUpdate.validate raw = Valid u →
  app (POST_location_updates raw) st
  = (accepted, <[LocationUpdate.orderId u := built_snapshot u]> st).
Proof. intros Hv. simpl. by rewrite Hv. Qed.

Lemma app_get_lookup orderId st :
  app (GET_location_track orderId) st
  = (match st !! orderId with Some s => ok s | None => not_found end, st).
Proof. unfold app, get_latest_location. by destruct (st !! orderId). Qed.

Lemma app_dom_mono req st : dom st ⊆ dom (app req st).2.
Proof.
  destruct req as [raw|orderId|].
  - simpl. destruct (LocationUpdate.validate raw); simpl; [|done..].
    rewrite dom_insert_L. set_solver.
  - by rewrite app_get_lookup.
  - done.
Qed.

Lemma run_dom_mono reqs st : dom st ⊆ dom (run reqs st).
Proof.
  revert st. induction reqs as [|req reqs IH]; intros st; simpl; [done|].
  etrans; [apply (app_dom_mono req)|apply IH].
Qed.

Lemma run_app reqs1 reqs2 st : run (reqs1 ++ reqs2) st = run reqs2 (run reqs1 st).
Proof. revert st. induction reqs1 as [|req reqs1 IH]; intros st; simpl; auto. Qed.

Lemma reachable_run reqs st : reachable st → reachable (run reqs st).
Proof.
  revert st. induction reqs as [|req reqs IH]; intros st Hst; simpl; [done|].
  apply IH. by constructor.
Qed.

Lemma reachable_iff_run st : reachable st ↔ ∃ reqs, st = run reqs _LOCATION_STORE.
Proof.
  split.
  - induction 1 as [|req st _ [reqs ->]].
    + by exists [].
    + exists (reqs ++ [req]). by rewrite run_app.
  - intros [reqs ->]. apply reachable_run. constructor.
Qed.

(** ** The register: overwrite, lookup, validation *)

(** C1: two valid updates U1 then U2 of the same orderId, in that order of
    arrival and whatever their timestamps: the latest location of the order
    is then exactly the snapshot built from U2, and the store is the one U2
    alone would have left, so nothing of U1 is merged in. *)
Theorem last_write_wins raw1 raw2 u1 u2 st :
  LocationUpdate.validate raw1 = Valid u1 →
  LocationUpdate.validate raw2 = Valid u2 →
  LocationUpdate.orderId u1 = LocationUpdate.orderId u2 →
  let st2 := run [POST_location_updates raw1; POST_location_updates raw2] st in
  (app (GET_location_track (LocationUpdate.orderId u1)) st2).1 = ok (built_snapshot u2)
  ∧ st2 = run [POST_location_updates raw2] st.
Proof.
  intros H1 H2 Hid. cbn [run].
  rewrite (app_post_valid raw1 u1), !(app_post_valid raw2 u2) by done.
  cbn [snd]. rewrite app_get_lookup, Hid, lookup_insert_eq. split; [done|].
  apply insert_insert_eq.
Qed.

(** An update of 10:05 moving at 5 m/s, then an older one of 10:00 without
    speed: the older one, arrived last, is what the order shows, with no
    ETA left over. *)
Lemma last_write_wins_witness :
  (app (GET_location_track "O1")
     (run [POST_location_updates Sample.raw_O1_moving;
           POST_location_updates Sample.raw_O1] _LOCATION_STORE)).1
  = ok {| LocationSnapshot.position :=
            {| GeoPoint.lat := Sample.f12_9; GeoPoint.lng := Sample.f77_6 |};
          LocationSnapshot.timestamp := Sample.at_utc 2024 5 1 10 0 0;
          LocationSnapshot.etaMinutes := None |}.
Proof.
  exact (proj1 (last_write_wins Sample.raw_O1_moving Sample.raw_O1
                  Sample.upd_O1_moving Sample.upd_O1 _LOCATION_STORE
                  eq_refl eq_refl eq_refl)).
Defined.

(** C2: for a valid update the stored snapshot has etaMinutes 10 exactly
    when speedMps is given and greater than 0, and null exactly when
    speedMps is omitted or equal to 0; there is no third value, and 10 does
    not depend on the speed. *)
Theorem eta_is_placeholder raw u st :
  LocationUpdate.validate raw = Valid u →
  ∃ snap,
    (app (POST_location_updates raw) st).2 !! LocationUpdate.orderId u = Some snap
    ∧ (LocationSnapshot.etaMinutes snap = Some 10
       ↔ ∃ v, Body.speedMps raw = Some v ∧ PyFloat.gt_int v 0 = true)
    ∧ (LocationSnapshot.etaMinutes snap = None
       ↔ Body.speedMps raw = None
         ∨ ∃ v, Body.speedMps raw = Some v ∧ PyFloat.eq_int v 0 = true)
    ∧ (LocationSnapshot.etaMinutes snap = Some 10
       ∨ LocationSnapshot.etaMinutes snap = None).
Proof.
  intros Hv. rewrite (app_post_valid raw u) by done. cbn [snd].
  exists (built_snapshot u). rewrite lookup_insert_eq. split; [done|].
  apply validate_Valid_inv in Hv as (_ & _ & _ & _ & Hs & Hge & _).
  unfold built_snapshot, _estimate_eta_minutes. cbn [LocationSnapshot.etaMinutes].
  rewrite <- Hs. destruct (Body.speedMps raw) as [v|].
  - specialize (Hge v eq_refl).
    pose proof (ge_le_eq v 0 Hge) as Heq. pose proof (ge_not_le_gt v 0 Hge) as Hgt.
    destruct (PyFloat.le_int v 0); simpl in Hgt.
    + split; [|split]; [| |by right].
      * split; [done|]. intros (v' & [= <-] & Hv'). by rewrite Hv' in Hgt.
      * split; [|done]. intros _. right. eauto.
    + split; [|split]; [| |by left].
      * split; [|done]. intros _. eauto.
      * split; [done|]. intros [|(v' & [= <-] & Hv')]; [done|]. by rewrite Hv' in Heq.
  - split; [|split]; [| |by right].
    + split; [done|]. by intros (v' & ? & _).
    + split; [|done]. intros _. by left.
Qed.

(** Moving at 5 m/s gives 10 minutes. *)
Lemma eta_is_placeholder_witness :
  ∃ snap,
    (app (POST_location_updates Sample.raw_O1_moving) _LOCATION_STORE).2 !! "O1"
    = Some snap
    ∧ LocationSnapshot.etaMinutes snap = Some 10.
Proof.
  destruct (eta_is_placeholder Sample.raw_O1_moving Sample.upd_O1_moving
              _LOCATION_STORE eq_refl) as (snap & Hsnap & H10 & _).
  exists snap. split; [exact Hsnap|].
  apply H10. exists (PyFloat.of_Z 5). split; reflexivity.
Defined.

(** Speed omitted and speed 0 give no ETA; speed 5 gives 10. *)
Lemma eta_examples :
  (app (POST_location_updates Sample.raw_O1) _LOCATION_STORE).2 !! "O1"
  = Some {| LocationSnapshot.position :=
              {| GeoPoint.lat := Sample.f12_9; GeoPoint.lng := Sample.f77_6 |};
            LocationSnapshot.timestamp := Sample.at_utc 2024 5 1 10 0 0;
            LocationSnapshot.etaMinutes := None |}
  ∧ (app (POST_location_updates Sample.raw_O1_still) _LOCATION_STORE).2 !! "O1"
    = Some {| LocationSnapshot.position :=
                {| GeoPoint.lat := Sample.f12_9; GeoPoint.lng := Sample.f77_6 |};
              LocationSnapshot.timestamp := Sample.at_utc 2024 5 1 10 0 0;
              LocationSnapshot.etaMinutes := None |}
  ∧ (app (POST_location_updates Sample.raw_O1_moving) _LOCATION_STORE).2 !! "O1"
    = Some {| LocationSnapshot.position :=
                {| GeoPoint.lat := PyFloat.of_Z 13; GeoPoint.lng := PyFloat.of_Z 78 |};
              LocationSnapshot.timestamp := Sample.at_utc 2024 5 1 10 5 0;
              LocationSnapshot.etaMinutes := Some 10 |}.
Proof. repeat split; vm_compute; reflexivity. Qed.

(** The estimate looks at the sign of the speed only. *)
Lemma estimate_is_constant v w :
  PyFloat.gt_int v 0 = true → PyFloat.gt_int w 0 = true →
  _estimate_eta_minutes (Some v) = _estimate_eta_minutes (Some w).
Proof.
  unfold _estimate_eta_minutes, PyFloat.gt_int, PyFloat.le_int.
  by destruct (PyFloat.compare_int v 0) as [[]|], (PyFloat.compare_int w 0) as [[]|].
Qed.

(** C3: the latest location of an order is answered with 404 and the
    detail "Location not found for orderId" if and only if the store has no
    snapshot for the orderId; when it has one, the answer is 200 with that
    snapshot. *)
Theorem not_found_iff_absent orderId (st : store) :
  ((get_latest_location orderId st).1
   = inl {| HTTPException.status_code := 404;
            HTTPException.detail := "Location not found for orderId" |}
   ↔ st !! orderId = None)
  ∧ ((app (GET_location_track orderId) st).1 = not_found ↔ st !! orderId = None)
  ∧ (∀ s, (app (GET_location_track orderId) st).1 = ok s ↔ st !! orderId = Some s).
Proof.
  rewrite app_get_lookup. unfold get_latest_location.
  destruct (st !! orderId) as [s|]; simpl.
  - split; [|split]; [done..|]. intros s'. unfold ok. split; by intros [= ->].
  - split; [|split]; [done..|]. by intros s'.
Qed.

(** ** Timestamps *)

Lemma in_range_add_utc w : PyDatetime.in_range (w + PyDatetime.utc) = PyDatetime.in_range w.
Proof. unfold PyDatetime.utc. by rewrite Z.add_0_r. Qed.

Lemma ensure_timezone_inr v t :
  LocationUpdate.ensure_timezone v = inr t →
  PyDatetime.tzinfo t = Some PyDatetime.utc
  ∧ (PyDatetime.tzinfo v = None → PyDatetime.wall t = PyDatetime.wall v)
  ∧ (∀ off, PyDatetime.tzinfo v = Some off →
            PyDatetime.wall t = PyDatetime.wall v - off
            ∧ PyDatetime.in_range (PyDatetime.wall v - off) = true).
Proof.
  unfold LocationUpdate.ensure_timezone.
  destruct (PyDatetime.tzinfo v) as [off|] eqn:Htz.
  - unfold PyDatetime.astimezone, PyDatetime.add. cbn [PyDatetime.wall PyDatetime.tzinfo].
    replace (PyDatetime.wall v + - off) with (PyDatetime.wall v - off) by lia.
    destruct (PyDatetime.in_range (PyDatetime.wall v - off)) eqn:Hr; [|done].
    cbn [PyDatetime.replace_tzinfo PyDatetime.wall PyDatetime.tzinfo].
    rewrite in_range_add_utc, Hr. intros [= <-]. cbn.
    split; [done|]. split; [done|]. intros ? [= <-]. unfold PyDatetime.utc. split; [lia|done].
  - intros [= <-]. cbn. split; [done|]. split; [done|]. done.
Qed.


Lemma ensure_timezone_aware v off :
  PyDatetime.tzinfo v = Some off →
  LocationUpdate.ensure_timezone v
  = if PyDatetime.in_range (PyDatetime.wall v - off)
    then inr {| PyDatetime.wall := PyDatetime.wall v - off;
                PyDatetime.tzinfo := Some PyDatetime.utc |}
    else inl OverflowError.
Proof.
  unfold LocationUpdate.ensure_timezone. intros ->.
  unfold PyDatetime.astimezone, PyDatetime.add. cbn [PyDatetime.wall PyDatetime.tzinfo].
  replace (PyDatetime.wall v + - off) with (PyDatetime.wall v - off) by lia.
  destruct (PyDatetime.in_range (PyDatetime.wall v - off)) eqn:Hr; [|done].
  cbn [PyDatetime.replace_tzinfo PyDatetime.wall PyDatetime.tzinfo].
  rewrite in_range_add_utc, Hr. unfold PyDatetime.utc. by rewrite Z.add_0_r.
Qed.

(** C4: the timestamp of an accepted update is stored, and returned, in
    UTC.  A timestamp without timezone keeps its clock reading and gets the
    UTC zone attached; a timestamp with a timezone is stored as the UTC
    reading of the same instant. *)
Theorem timestamp_normalized_to_utc raw u v st :
  LocationUpdate.validate raw = Valid u →
  Body.timestamp raw = Some v →
  ∃ snap,
    (app (GET_location_track (LocationUpdate.orderId u))
       (app (POST_location_updates raw) st).2).1 = ok snap
    ∧ PyDatetime.tzinfo (LocationSnapshot.timestamp snap) = Some PyDatetime.utc
    ∧ (PyDatetime.tzinfo v = None →
       PyDatetime.wall (LocationSnapshot.timestamp snap) = PyDatetime.wall v)
    ∧ (is_Some (PyDatetime.tzinfo v) →
       PyDatetime.instant (LocationSnapshot.timestamp snap) = PyDatetime.instant v).
Proof.
  intros Hv Hts. rewrite (app_post_valid raw u) by done. cbn [snd].
  rewrite app_get_lookup, lookup_insert_eq. cbn [fst].
  exists (built_snapshot u). split; [done|]. cbn [built_snapshot LocationSnapshot.timestamp].
  apply validate_Valid_inv in Hv as (_ & _ & _ & _ & _ & _ & ts & Hts' & Hens).
  rewrite Hts in Hts'. injection Hts' as <-.
  apply ensure_timezone_inr in Hens as (Hutc & Hnaive & Haware).
  split; [done|]. split; [done|]. intros [off Hoff].
  destruct (Haware off Hoff) as [Hw _].
  unfold PyDatetime.instant. rewrite Hutc, Hoff, Hw. unfold PyDatetime.utc.
  f_equal. lia.
Qed.

(** 15:30 on a clock five and a half hours ahead of UTC is stored as
    10:00 UTC. *)
Lemma timestamp_normalized_to_utc_witness :
  ∃ snap,
    (app (GET_location_track "O1")
       (app (POST_location_updates Sample.raw_O1_ist) _LOCATION_STORE).2).1 = ok snap
    ∧ PyDatetime.tzinfo (LocationSnapshot.timestamp snap) = Some PyDatetime.utc
    ∧ PyDatetime.instant (LocationSnapshot.timestamp snap)
      = Some (PyDatetime.clock 2024 5 1 10 0 0 0).
Proof.
  destruct (timestamp_normalized_to_utc Sample.raw_O1_ist Sample.upd_O1 _
              _LOCATION_STORE eq_refl eq_refl) as (snap & Hget & Hutc & _ & Haware).
  exists snap. split; [exact Hget|]. split; [exact Hutc|].
  rewrite Haware; [reflexivity|]. eexists. reflexivity.
Defined.

(** The naive timestamp 2024-01-01T00:00:00 is stored and returned as
    2024-01-01T00:00:00 UTC. *)
Lemma naive_new_year_is_utc :
  (app (GET_location_track "O2")
     (app (POST_location_updates Sample.raw_O2_naive) _LOCATION_STORE).2).1
  = ok {| LocationSnapshot.position :=
            {| GeoPoint.lat := PyFloat.of_Z 90; GeoPoint.lng := PyFloat.of_Z 180 |};
          LocationSnapshot.timestamp :=
            {| PyDatetime.wall := PyDatetime.clock 2024 1 1 0 0 0 0;
               PyDatetime.tzinfo := Some PyDatetime.utc |};
          LocationSnapshot.etaMinutes := None |}.
Proof.
  rewrite (app_post_valid _ Sample.upd_O2) by reflexivity.
  cbn [snd]. by rewrite app_get_lookup, lookup_insert_eq.
Qed.

(** A timestamp whose UTC reading would lie outside the years 1..9999
    cannot be normalized: the validator raises, and the request is answered
    with 500 and stores nothing. *)
Lemma unconvertible_timestamp st :
  app (POST_location_updates
         (Sample.body "O1" Sample.f12_9 Sample.f77_6 None Sample.before_min)) st
  = ({| status_code := 500; body := InternalServerError |}, st).
Proof. reflexivity. Qed.

(** ** Validation of a submission *)

(** A body with every required key, whose timestamp can be normalized: it
    is valid when the three declared bounds hold, and otherwise invalid
    with at least one error. *)
Lemma validate_complete oid cid la ln b s ts ts' :
  LocationUpdate.ensure_timezone ts = inr ts' →
  let raw :=
    {| Body.orderId := Some oid; Body.courierId := Some cid;
       Body.position := Some {| Body.lat := Some la; Body.lng := Some ln |};
       Body.bearing := b; Body.speedMps := s; Body.timestamp := Some ts |} in
  if within (-90) 90 la && within (-180) 180 ln && speed_ok s
  then LocationUpdate.validate raw
       = Valid {| LocationUpdate.orderId := oid; LocationUpdate.courierId := cid;
                  LocationUpdate.position := {| GeoPoint.lat := la; GeoPoint.lng := ln |};
                  LocationUpdate.bearing := b; LocationUpdate.speedMps := s;
                  LocationUpdate.timestamp := ts' |}
  else ∃ errs, errs ≠ [] ∧ LocationUpdate.validate raw = Invalid errs.
Proof.
  intros Hts raw. subst raw.
  unfold LocationUpdate.validate, GeoPoint.validate.
  cbn [Body.orderId Body.courierId Body.position Body.bearing Body.speedMps
       Body.timestamp Body.lat Body.lng required optional unconstrained].
  rewrite Hts.
  assert (∀ (l1 l2 : list ErrorWrapper) e, l1 ++ [e] ++ l2 ≠ []) as Hne
    by (intros [|??] ???; done).
  destruct (within (-90) 90 la) eqn:Hla.
  - rewrite (coordinate_ok _ _ _ _ Hla).
    destruct (within (-180) 180 ln) eqn:Hln.
    + rewrite (coordinate_ok _ _ _ _ Hln).
      destruct s as [v|]; cbn [speed_ok andb optional].
      * unfold number_size. cbn [check_ge check_le].
        destruct (PyFloat.ge_int v 0); [by destruct b|].
        destruct b; eexists; (split; [|reflexivity]); done.
      * by destruct b.
    + destruct (coordinate_bad (["body"; "position"] ++ ["lng"]) _ _ _ Hln) as [e ->].
      cbn [andb]. destruct b, s as [v|]; cbn [optional];
        try destruct (number_size _ _ _ v); eexists; (split; [|reflexivity]); done.
  - destruct (coordinate_bad (["body"; "position"] ++ ["lat"]) _ _ _ Hla) as [e ->].
    cbn [andb]. destruct (number_size _ _ _ ln), b, s as [v|]; cbn [optional];
      try destruct (number_size _ _ _ v); eexists; (split; [|reflexivity]); done.
Qed.

(** Whatever else a body holds, it is valid only with both coordinates
    and the speed inside their bounds. *)
Lemma valid_update_in_range raw u :
  LocationUpdate.validate raw = Valid u →
  within (-90) 90 (GeoPoint.lat (LocationUpdate.position u)) = true
  ∧ within (-180) 180 (GeoPoint.lng (LocationUpdate.position u)) = true
  ∧ speed_ok (LocationUpdate.speedMps u) = true.
Proof.
  intros (_ & _ & (p & _ & Hp) & _ & Hs & Hge & _)%validate_Valid_inv.
  apply GeoPoint_validate_inr in Hp as (la & ln & _ & -> & Hla & Hln).
  split; [done|]. split; [done|]. rewrite <- Hs.
  destruct (Body.speedMps raw) as [v|]; [by apply Hge | done].
Qed.


(** The submissions of the specification: latitude 91 and longitude 181 are
    answered with 422, a negative speed too; latitude 90 with longitude 180
    is accepted. *)
Lemma range_examples :
  (app (POST_location_updates Sample.raw_lat_91) _LOCATION_STORE).1
  = unprocessable [ {| loc := ["body"; "position"; "lat"];
                       exc := value_error_number_not_le 90 |} ]
  ∧ (app (POST_location_updates Sample.raw_lng_181) _LOCATION_STORE).1
    = unprocessable [ {| loc := ["body"; "position"; "lng"];
                         exc := value_error_number_not_le 180 |} ]
  ∧ (app (POST_location_updates Sample.raw_speed_negative) _LOCATION_STORE).1
    = unprocessable [ {| loc := ["body"; "speedMps"];
                         exc := value_error_number_not_ge 0 |} ]
  ∧ (app (POST_location_updates Sample.raw_O2_naive) _LOCATION_STORE).1 = accepted.
Proof. repeat split; reflexivity. Qed.

(** C6: an update that passes validation is always accepted, whatever the
    store holds for its orderId: the answer is 202 with the body
    [{"status":"accepted"}], and the store afterwards is the store before
    with the new snapshot written under the orderId of the update. *)
Theorem valid_submit_accepted raw u (st : store) :
  LocationUpdate.validate raw = Valid u →
  app (POST_location_updates raw) st
  = ({| status_code := 202; body := JSONObject [("status", "accepted")] |},
     <[LocationUpdate.orderId u := built_snapshot u]> st)
  ∧ ∀ k, (app (POST_location_updates raw) st).2 !! k
         = if decide (k = LocationUpdate.orderId u)
           then Some (built_snapshot u) else st !! k.
Proof.
  intros Hv. rewrite (app_post_valid raw u st Hv). split; [done|].
  intros k. cbn [snd]. case_decide as Hk.
  - subst k. apply lookup_insert_eq.
  - by apply lookup_insert_ne.
Qed.

(** The scenario of the specification, submitted to a store that already
    holds a snapshot of the order. *)
Lemma valid_submit_accepted_witness :
  app (POST_location_updates Sample.raw_O1)
      (app (POST_location_updates Sample.raw_O1_moving) _LOCATION_STORE).2
  = (accepted,
     <["O1" := built_snapshot Sample.upd_O1]>
       (app (POST_location_updates Sample.raw_O1_moving) _LOCATION_STORE).2).
Proof.
  exact (proj1 (valid_submit_accepted Sample.raw_O1 Sample.upd_O1 _ eq_refl)).
Defined.

(** C7: when a submission fails validation, the errors are returned with
    422 and the store is left exactly as it was. *)
Theorem invalid_submit_writes_nothing raw errs (st : store) :
  LocationUpdate.validate raw = Invalid errs →
  app (POST_location_updates raw) st = (unprocessable errs, st)
  ∧ ∀ k, (app (POST_location_updates raw) st).2 !! k = st !! k.
Proof. intros Hv. cbn [app]. by rewrite Hv. Qed.

(** Longitude 181 for an order that has a snapshot: the snapshot stays. *)
Lemma invalid_submit_writes_nothing_witness :
  (app (POST_location_updates Sample.raw_lng_181)
     (app (POST_location_updates Sample.raw_O1) _LOCATION_STORE).2).2
  = (app (POST_location_updates Sample.raw_O1) _LOCATION_STORE).2.
Proof.
  exact (f_equal snd
           (proj1 (invalid_submit_writes_nothing Sample.raw_lng_181 _
                     (app (POST_location_updates Sample.raw_O1) _LOCATION_STORE).2
                     eq_refl))).
Defined.

(** ** The life of a snapshot *)

(** C8: in every reachable state the store lists each orderId at most
    once; no request removes an orderId, so the stored orderIds only grow
    and the states that follow are reachable too; and an order that has a
    snapshot is found, with 200, in every later state. *)
Theorem snapshots_are_never_removed (st : store) reqs :
  reachable st →
  NoDup (map_to_list st).*1
  ∧ (∀ k s1 s2, st !! k = Some s1 → st !! k = Some s2 → s1 = s2)
  ∧ (∀ req, dom st ⊆ dom (app req st).2)
  ∧ dom st ⊆ dom (run reqs st)
  ∧ reachable (run reqs st)
  ∧ ∀ k, is_Some (st !! k) →
         ∃ s, app (GET_location_track k) (run reqs st) = (ok s, run reqs st).
Proof.
  intros Hst. split; [apply NoDup_fst_map_to_list|].
  split; [intros k s1 s2 H1 H2; congruence|].
  split; [intros req; apply app_dom_mono|].
  split; [apply run_dom_mono|].
  split; [by apply reachable_run|].
  intros k Hk. apply elem_of_dom in Hk.
  apply (run_dom_mono reqs) in Hk. apply elem_of_dom in Hk as [s Hs].
  exists s. by rewrite app_get_lookup, Hs.
Qed.

(** Order O1 is submitted; then a rejected submission, a lookup of another
    order, the probe and a submission for O2 are served: O1 is still found. *)
Lemma snapshots_are_never_removed_witness :
  ∃ s,
    app (GET_location_track "O1")
      (run [POST_location_updates Sample.raw_lat_91; GET_location_track "O2";
            GET_root; POST_location_updates Sample.raw_O2_naive]
         (app (POST_location_updates Sample.raw_O1) _LOCATION_STORE).2)
    = (ok s,
       run [POST_location_updates Sample.raw_lat_91; GET_location_track "O2";
            GET_root; POST_location_updates Sample.raw_O2_naive]
         (app (POST_location_updates Sample.raw_O1) _LOCATION_STORE).2).
Proof.
  apply (snapshots_are_never_removed
           (app (POST_location_updates Sample.raw_O1) _LOCATION_STORE).2
           [POST_location_updates Sample.raw_lat_91; GET_location_track "O2";
            GET_root; POST_location_updates Sample.raw_O2_naive]
           (reachable_step _ _ reachable_init)).
  exists (built_snapshot Sample.upd_O1). vm_compute. reflexivity.
Defined.

(** The first valid submission of an order creates its snapshot. *)
Lemma first_submit_creates raw u (st : store) :
  LocationUpdate.validate raw = Valid u →
  st !! LocationUpdate.orderId u = None →
  (app (GET_location_track (LocationUpdate.orderId u)) st).1 = not_found
  ∧ (app (GET_location_track (LocationUpdate.orderId u))
       (app (POST_location_updates raw) st).2).1 = ok (built_snapshot u).
Proof.
  intros Hv Hnone. rewrite (app_post_valid raw u st Hv), !app_get_lookup.
  cbn [fst snd]. by rewrite Hnone, lookup_insert_eq.
Qed.

(** C9: looking up the latest location never changes the store, whether a
    snapshot is returned or the lookup fails with 404. *)
Theorem get_latest_is_a_pure_read orderId (st : store) :
  (get_latest_location orderId st).2 = st
  ∧ (app (GET_location_track orderId) st).2 = st.
Proof.
  rewrite app_get_lookup. unfold get_latest_location.
  by destruct (st !! orderId).
Qed.

(** C10: a valid submission for an order changes the entry of that order
    only: the snapshot stored for any other orderId, or its absence, is the
    same before and after. *)
Theorem submit_touches_one_order raw u (st : store) other :
  LocationUpdate.validate raw = Valid u →
  other ≠ LocationUpdate.orderId u →
  (app (POST_location_updates raw) st).2 !! other = st !! other.
Proof.
  intros Hv Hne. rewrite (app_post_valid raw u st Hv). cbn [snd].
  by apply lookup_insert_ne.
Qed.

(** A submission for O1 leaves the snapshot of O2 in place. *)
Lemma submit_touches_one_order_witness :
  (app (POST_location_updates Sample.raw_O1)
     (app (POST_location_updates Sample.raw_O2_naive) _LOCATION_STORE).2).2 !! "O2"
  = (app (POST_location_updates Sample.raw_O2_naive) _LOCATION_STORE).2 !! "O2".
Proof.
  apply (submit_touches_one_order Sample.raw_O1 Sample.upd_O1 _ "O2" eq_refl).
  vm_compute. discriminate.
Defined.

(** ** What the store holds *)

Lemma within_in_bounds lo hi v : within lo hi v = true → in_bounds lo hi v.
Proof.
  unfold within, PyFloat.ge_int, PyFloat.le_int. intros [Hge Hle]%andb_true_iff.
  destruct (PyFloat.to_Q v) as [q|] eqn:Hq.
  - rewrite (compare_int_exact v q lo Hq) in Hge.
    rewrite (compare_int_exact v q hi Hq) in Hle.
    exists q. split; [done|]. split.
    + apply Qle_alt. rewrite <- Qcompare_antisym.
      by destruct (Qcompare q (inject_Z lo)).
    + apply Qle_alt. by destruct (Qcompare q (inject_Z hi)).
  - destruct v as [s|[]| |s m e]; done.
Qed.

Lemma built_snapshot_well_formed raw u :
  LocationUpdate.validate raw = Valid u → well_formed (built_snapshot u).
Proof.
  intros Hv. destruct (valid_update_in_range raw u Hv) as (Hla & Hln & _).
  apply validate_Valid_inv in Hv as (_ & _ & _ & _ & _ & _ & ts & _ & Hts).
  apply ensure_timezone_inr in Hts as (Hutc & _).
  unfold well_formed, built_snapshot. cbn.
  split; [by apply within_in_bounds|]. split; [by apply within_in_bounds|].
  split; [done|]. unfold _estimate_eta_minutes.
  destruct (LocationUpdate.speedMps u) as [v|]; [|by left].
  destruct (PyFloat.le_int v 0); [by left | by right].
Qed.

(** X1: every snapshot a reachable store holds has a latitude that is a
    number in [-90, 90] and a longitude that is a number in [-180, 180]
    (never NaN, never infinite), a timestamp in UTC, and an ETA that is
    null or 10. *)
Theorem stored_snapshots_well_formed (st : store) k s :
  reachable st → st !! k = Some s → well_formed s.
Proof.
  intros Hst. revert k s. induction Hst as [|req st _ IH]; intros k s.
  - unfold _LOCATION_STORE. by rewrite lookup_empty.
  - destruct req as [raw|orderId|].
    + cbn [app]. destruct (LocationUpdate.validate raw) as [u| |] eqn:Hv; cbn; [|apply IH..].
      destruct (decide (LocationUpdate.orderId u = k)) as [<-|Hne].
      * rewrite lookup_insert_eq. intros [= <-].
        by apply (built_snapshot_well_formed raw).
      * rewrite lookup_insert_ne by done. apply IH.
    + rewrite app_get_lookup. apply IH.
    + apply IH.
Qed.

Lemma stored_snapshots_well_formed_witness :
  well_formed
    {| LocationSnapshot.position :=
         {| GeoPoint.lat := Sample.f12_9; GeoPoint.lng := Sample.f77_6 |};
       LocationSnapshot.timestamp := Sample.at_utc 2024 5 1 10 0 0;
       LocationSnapshot.etaMinutes := None |}.
Proof.
  apply (stored_snapshots_well_formed
           (app (POST_location_updates Sample.raw_O1) _LOCATION_STORE).2 "O1").
  - exact (reachable_step _ _ reachable_init).
  - vm_compute. reflexivity.
Defined.

(** ** The timestamp validator *)

(** X2: normalizing is idempotent: what the validator returns for a
    timestamp within [datetime.min .. datetime.max] it returns unchanged
    when it is given it again. *)
Theorem ensure_timezone_idempotent v t :
  PyDatetime.in_range (PyDatetime.wall v) = true →
  LocationUpdate.ensure_timezone v = inr t →
  LocationUpdate.ensure_timezone t = inr t.
Proof.
  intros Hr Hv. destruct (ensure_timezone_inr v t Hv) as (Hutc & Hnaive & Haware).
  rewrite (ensure_timezone_aware t _ Hutc). unfold PyDatetime.utc.
  rewrite Z.sub_0_r.
  assert (PyDatetime.in_range (PyDatetime.wall t) = true) as ->.
  { destruct (PyDatetime.tzinfo v) as [off|] eqn:Htz.
    - destruct (Haware off eq_refl) as [-> ?]. done.
    - by rewrite Hnaive. }
  destruct t as [w tz]. cbn in *. by rewrite Hutc.
Qed.

Lemma ensure_timezone_idempotent_witness :
  LocationUpdate.ensure_timezone (Sample.at_utc 2024 5 1 10 0 0)
  = inr (Sample.at_utc 2024 5 1 10 0 0).
Proof.
  apply (ensure_timezone_idempotent
           {| PyDatetime.wall := PyDatetime.clock 2024 5 1 15 30 0 0;
              PyDatetime.tzinfo := Some (Sample.hours 5 + Sample.hours 1 / 2) |});
    reflexivity.
Defined.

(** X3: two timestamps that carry a timezone are normalized to the same
    value exactly when they denote the same instant, and the normalized
    clock readings are ordered as the instants are. *)
Theorem ensure_timezone_respects_instants v1 v2 t1 t2 :
  is_Some (PyDatetime.tzinfo v1) → is_Some (PyDatetime.tzinfo v2) →
  LocationUpdate.ensure_timezone v1 = inr t1 →
  LocationUpdate.ensure_timezone v2 = inr t2 →
  (t1 = t2 ↔ PyDatetime.instant v1 = PyDatetime.instant v2)
  ∧ (PyDatetime.wall t1 ≤ PyDatetime.wall t2
     ↔ ∃ i1 i2, PyDatetime.instant v1 = Some i1
                ∧ PyDatetime.instant v2 = Some i2 ∧ i1 ≤ i2).
Proof.
  intros [off1 H1] [off2 H2] He1 He2.
  rewrite (ensure_timezone_aware v1 off1 H1) in He1.
  rewrite (ensure_timezone_aware v2 off2 H2) in He2.
  destruct (PyDatetime.in_range (PyDatetime.wall v1 - off1)); [|done].
  destruct (PyDatetime.in_range (PyDatetime.wall v2 - off2)); [|done].
  injection He1 as <-. injection He2 as <-.
  unfold PyDatetime.instant. rewrite H1, H2. cbn. split.
  - split; [by intros [= ->] | by intros [= ->]].
  - split.
    + intros Hle. eauto.
    + by intros (i1 & i2 & [= <-] & [= <-] & Hle).
Qed.

(** 15:30 at +05:30 and 10:00 at UTC are one instant and one stored value. *)
Lemma ensure_timezone_respects_instants_witness :
  Sample.at_utc 2024 5 1 10 0 0 = Sample.at_utc 2024 5 1 10 0 0
  ↔ PyDatetime.instant
      {| PyDatetime.wall := PyDatetime.clock 2024 5 1 15 30 0 0;
         PyDatetime.tzinfo := Some (Sample.hours 5 + Sample.hours 1 / 2) |}
    = PyDatetime.instant (Sample.at_utc 2024 5 1 10 0 0).
Proof.
  refine (proj1 (ensure_timezone_respects_instants
            {| PyDatetime.wall := PyDatetime.clock 2024 5 1 15 30 0 0;
               PyDatetime.tzinfo := Some (Sample.hours 5 + Sample.hours 1 / 2) |}
            (Sample.at_utc 2024 5 1 10 0 0) _ _ _ _ eq_refl eq_refl));
    eexists; reflexivity.
Defined.

(** ** The answers of the routes *)

Lemma number_size_inl loc ge le v errs : number_size loc ge le v = inl errs → errs ≠ [].
Proof.
  unfold number_size.
  destruct (check_ge ge v); [by intros [= <-]|].
  destruct (check_le le v); [by intros [= <-] | done].
Qed.

Lemma GeoPoint_validate_inl loc raw errs : GeoPoint.validate loc raw = inl errs → errs ≠ [].
Proof.
  destruct raw as [[la|] [ln|]]; unfold GeoPoint.validate; cbn [Body.lat Body.lng required].
  - destruct (number_size _ _ _ la) as [e1|] eqn:H1, (number_size _ _ _ ln) as [e2|] eqn:H2;
      cbn [errors_of]; intros [= <-]; try done.
    + apply number_size_inl in H1. by destruct e1.
    + apply number_size_inl in H1. by destruct e1.
    + apply number_size_inl in H2. by destruct e2.
  - destruct (number_size _ _ _ la) as [e1|]; cbn [errors_of]; intros [= <-];
      [by destruct e1 | done].
  - destruct (number_size _ _ _ ln) as [e2|] eqn:H2; cbn [errors_of]; intros [= <-]; [|done].
    done.
  - by intros [= <-].
Qed.

Lemma app_nonempty_l {A} (l1 l2 : list A) : l1 ≠ [] → l1 ++ l2 ≠ [].
Proof. by destruct l1. Qed.

Lemma app_nonempty_r {A} (l1 l2 : list A) : l2 ≠ [] → l1 ++ l2 ≠ [].
Proof. destruct l1; [done|]. by intros. Qed.

Lemma validate_Invalid_nonempty raw errs :
  LocationUpdate.validate raw = Invalid errs → errs ≠ [].
Proof.
  destruct raw as [o c p b s t]. unfold LocationUpdate.validate.
  cbn [Body.orderId Body.courierId Body.position Body.bearing Body.speedMps
       Body.timestamp].
  assert (∀ r : validated GeoPoint.t,
            r = required ["body"; "position"] (GeoPoint.validate ["body"; "position"]) p →
            ∀ l, r = inl l → l ≠ []) as Hpos.
  { intros r -> l. destruct p as [p|]; cbn [required]; [apply GeoPoint_validate_inl|].
    by intros [= <-]. }
  assert (∀ r : validated (option float),
            r = optional (number_size ["body"; "speedMps"] (Some 0) None) s →
            ∀ l, r = inl l → l ≠ []) as Hspeed.
  { intros r -> l. destruct s as [v|]; cbn [optional]; [|done].
    destruct (number_size _ _ _ v) eqn:Hv; [|done].
    intros [= <-]. by apply number_size_inl in Hv. }
  specialize (Hpos _ eq_refl). specialize (Hspeed _ eq_refl).
  destruct (required ["body"; "position"] _ p) as [lp|gp];
    [specialize (Hpos lp eq_refl)|clear Hpos];
    (destruct (optional (number_size _ _ _) s) as [ls|sv];
     [specialize (Hspeed ls eq_refl)|clear Hspeed]);
    destruct t as [ts|]; try destruct (LocationUpdate.ensure_timezone ts); try done;
    destruct o, c, b; cbn; intros [= <-]; try done;
    repeat first [ done | by destruct lp | by destruct ls
                 | apply app_nonempty_l; done
                 | apply app_nonempty_r ].
Qed.


(** X5: a request changes the store only when it is a submission answered
    with 202: after any other answer, and after every read, the store is
    the one the request met. *)
Theorem only_accepted_submissions_write req (st : store) :
  status_code (app req st).1 ≠ 202 → (app req st).2 = st.
Proof.
  destruct req as [raw|orderId|].
  - cbn [app]. by destruct (LocationUpdate.validate raw).
  - by rewrite app_get_lookup.
  - done.
Qed.

Lemma only_accepted_submissions_write_witness :
  (app (POST_location_updates Sample.raw_speed_negative)
     (app (POST_location_updates Sample.raw_O1) _LOCATION_STORE).2).2
  = (app (POST_location_updates Sample.raw_O1) _LOCATION_STORE).2.
Proof.
  apply (only_accepted_submissions_write
           (POST_location_updates Sample.raw_speed_negative)).
  vm_compute. discriminate.
Defined.

(** ** How submissions compose *)

(** X7: submitting the same body twice in a row leaves the store that
    submitting it once leaves, whether the body is valid or not. *)
Theorem resubmission_is_idempotent raw (st : store) :
  run [POST_location_updates raw; POST_location_updates raw] st
  = run [POST_location_updates raw] st.
Proof.
  cbn [run app]. destruct (LocationUpdate.validate raw) as [u| |]; cbn; [|done..].
  apply insert_insert_eq.
Qed.

(** X8: valid submissions for two different orders commute: served in
    either order they leave the same store. *)
Theorem submissions_of_different_orders_commute raw1 raw2 u1 u2 (st : store) :
  LocationUpdate.validate raw1 = Valid u1 →
  LocationUpdate.validate raw2 = Valid u2 →
  LocationUpdate.orderId u1 ≠ LocationUpdate.orderId u2 →
  run [POST_location_updates raw1; POST_location_updates raw2] st
  = run [POST_location_updates raw2; POST_location_updates raw1] st.
Proof.
  intros H1 H2 Hne. cbn [run].
  rewrite !(app_post_valid raw1 u1), !(app_post_valid raw2 u2) by done. cbn [snd].
  by apply insert_insert_ne.
Qed.

Lemma submissions_of_different_orders_commute_witness :
  run [POST_location_updates Sample.raw_O1;
       POST_location_updates Sample.raw_O2_naive] _LOCATION_STORE
  = run [POST_location_updates Sample.raw_O2_naive;
         POST_location_updates Sample.raw_O1] _LOCATION_STORE.
Proof.
  apply (submissions_of_different_orders_commute Sample.raw_O1 Sample.raw_O2_naive
           Sample.upd_O1 Sample.upd_O2 _LOCATION_STORE eq_refl eq_refl).
  vm_compute. discriminate.
Defined.

(** Among bodies whose numbers are coerced, neither the courier nor the
    bearing changes the answer or the store. *)
Lemma coerced_courier_and_bearing raw courierId bearing (st : store) :
  is_Some (Body.courierId raw) →
  app (POST_location_updates (resent raw courierId bearing)) st
  = app (POST_location_updates raw) st.
Proof.
  intros [c Hc]. destruct raw as [o c' p b s t]. cbn in Hc. subst c'.
  unfold resent. cbn [app]. unfold LocationUpdate.validate.
  cbn [Body.orderId Body.courierId Body.position Body.bearing Body.speedMps
       Body.timestamp required optional unconstrained].
  destruct t as [ts|]; [destruct (LocationUpdate.ensure_timezone ts)|]; [done| |];
    destruct o, (required ["body"; "position"] _ p),
      (optional (number_size _ _ _) s), b, bearing; done.
Qed.

Lemma last_update_acc k reqs acc :
  last_update k reqs acc
  = match last_update k reqs None with
    | Some u => Some u
    | None => acc
    end.
Proof.
  revert acc. induction reqs as [|req reqs IH]; intros acc; [done|].
  destruct req as [raw| |]; cbn [last_update]; [|apply IH..].
  destruct (LocationUpdate.validate raw) as [u| |]; [|apply IH..].
  case_decide; [|apply IH].
  rewrite (IH (Some u)). by destruct (last_update k reqs None).
Qed.

Lemma run_lookup reqs (st : store) k :
  run reqs st !! k
  = match last_update k reqs None with
    | Some u => Some (built_snapshot u)
    | None => st !! k
    end.
Proof.
  revert st. induction reqs as [|req reqs IH]; intros st; [done|].
  cbn [run]. rewrite IH. destruct req as [raw|orderId|]; cbn [last_update].
  - cbn [app post_location_update].
    destruct (LocationUpdate.validate raw) as [u| |]; cbn [snd]; [|done..].
    case_decide as Hk.
    + rewrite (last_update_acc k reqs (Some u)).
      destruct (last_update k reqs None); [done|]. subst k. by rewrite lookup_insert_eq.
    + destruct (last_update k reqs None); [done|]. by rewrite lookup_insert_ne.
  - by rewrite app_get_lookup.
  - done.
Qed.

(** X10: after any sequence of requests, what the store holds for an order
    is the snapshot built from the last submission for that order that
    passed validation; when there is none, it is what the store held
    before.  Reads, the probe and rejected submissions play no part. *)
Theorem store_holds_last_valid_update reqs (st : store) k :
  app (GET_location_track k) (run reqs st)
  = (match last_update k reqs None with
     | Some u => ok (built_snapshot u)
     | None => match st !! k with Some s => ok s | None => not_found end
     end, run reqs st).
Proof.
  rewrite app_get_lookup, run_lookup.
  by destruct (last_update k reqs None).
Qed.

(** X11: an order for which no valid submission was served is not found:
    started from the empty store, the lookup of an order is answered with
    404 exactly when none of the requests served was a valid submission for
    it. *)
Theorem not_found_iff_never_submitted reqs k :
  (app (GET_location_track k) (run reqs _LOCATION_STORE)).1 = not_found
  ↔ last_update k reqs None = None.
Proof.
  rewrite app_get_lookup, run_lookup. unfold _LOCATION_STORE.
  rewrite lookup_empty. cbn [fst].
  destruct (last_update k reqs None); [|done]. split; [by intros [=] | done].
Qed.

(** X12: the store grows by at most one entry for each submission served:
    its size after a sequence of requests is at most its size before plus
    the number of submissions among them. *)
Theorem store_size_bound reqs (st : store) :
  (size (run reqs st) ≤ size st + submissions reqs)%nat.
Proof.
  revert st. induction reqs as [|req reqs IH]; intros st; cbn [run submissions]; [lia|].
  etrans; [apply IH|]. destruct req as [raw|orderId|].
  - cbn [app post_location_update].
    destruct (LocationUpdate.validate raw) as [u| |]; cbn [snd]; [|lia..].
    destruct (st !! LocationUpdate.orderId u) eqn:Hk.
    + rewrite map_size_insert_Some by eauto. lia.
    + rewrite map_size_insert_None by done. lia.
  - rewrite app_get_lookup. cbn [snd]. lia.
  - cbn. lia.
Qed.

(** ** What is accepted, and what comes back *)

(** When a body whose numbers are coerced is accepted. *)
Lemma coerced_accepted_iff raw (st : store) :
  (app (POST_location_updates raw) st).1 = accepted
  ↔ is_Some (Body.orderId raw)
    ∧ is_Some (Body.courierId raw)
    ∧ (∃ la ln, Body.position raw = Some {| Body.lat := Some la; Body.lng := Some ln |}
                ∧ within (-90) 90 la = true ∧ within (-180) 180 ln = true)
    ∧ speed_ok (Body.speedMps raw) = true
    ∧ ∃ ts ts', Body.timestamp raw = Some ts
                ∧ LocationUpdate.ensure_timezone ts = inr ts'.
Proof.
  split.
  - cbn [app]. destruct (LocationUpdate.validate raw) as [u| |] eqn:Hv; [|done..].
    intros _. destruct (valid_update_in_range raw u Hv) as (Hla & Hln & Hs).
    apply validate_Valid_inv in Hv
      as (Ho & Hc & (p & Hp & Hgp) & _ & Hsp & _ & ts & Hts & Hens).
    apply GeoPoint_validate_inr in Hgp as (la & ln & -> & Hu & _ & _).
    rewrite Hu in Hla, Hln. cbn in Hla, Hln.
    split; [by rewrite Ho|]. split; [by rewrite Hc|].
    split; [by exists la, ln|]. split; [by rewrite Hsp|]. by exists ts, (LocationUpdate.timestamp u).
  - intros ([o Ho] & [c Hc] & (la & ln & Hp & Hla & Hln) & Hs & ts & ts' & Hts & Hens).
    destruct raw as [o' c' p b s t]. cbn in Ho, Hc, Hp, Hs, Hts. subst o' c' p t.
    pose proof (validate_complete o c la ln b s ts ts' Hens) as Hv.
    cbv zeta in Hv. rewrite Hla, Hln, Hs in Hv. cbn [andb] in Hv.
    by rewrite (app_post_valid _ _ st Hv).
Qed.

(** X14: what comes back is what went in: after a valid submission the
    lookup of its order returns the latitude and the longitude of the body
    as they were sent, without rounding or clamping, the normalized
    timestamp, and the ETA estimated from the speed of the body. *)
Theorem lookup_returns_what_was_sent raw u (st : store) :
  LocationUpdate.validate raw = Valid u →
  ∃ la ln ts ts',
    Body.position raw = Some {| Body.lat := Some la; Body.lng := Some ln |}
    ∧ Body.timestamp raw = Some ts
    ∧ LocationUpdate.ensure_timezone ts = inr ts'
    ∧ (app (GET_location_track (LocationUpdate.orderId u))
         (app (POST_location_updates raw) st).2).1
      = ok {| LocationSnapshot.position := {| GeoPoint.lat := la; GeoPoint.lng := ln |};
              LocationSnapshot.timestamp := ts';
              LocationSnapshot.etaMinutes :=
                _estimate_eta_minutes (Body.speedMps raw) |}.
Proof.
  intros Hv. rewrite (app_post_valid raw u st Hv). cbn [snd].
  rewrite app_get_lookup, lookup_insert_eq. cbn [fst].
  apply validate_Valid_inv in Hv
    as (_ & _ & (p & Hp & Hgp) & _ & Hsp & _ & ts & Hts & Hens).
  apply GeoPoint_validate_inr in Hgp as (la & ln & -> & Hu & _ & _).
  exists la, ln, ts, (LocationUpdate.timestamp u).
  split; [done|]. split; [done|]. split; [done|].
  unfold built_snapshot. by rewrite Hu, Hsp.
Qed.

Lemma lookup_returns_what_was_sent_witness :
  ∃ la ln ts ts',
    Body.position Sample.raw_O1_ist
    = Some {| Body.lat := Some la; Body.lng := Some ln |}
    ∧ Body.timestamp Sample.raw_O1_ist = Some ts
    ∧ LocationUpdate.ensure_timezone ts = inr ts'
    ∧ (app (GET_location_track "O1")
         (app (POST_location_updates Sample.raw_O1_ist) _LOCATION_STORE).2).1
      = ok {| LocationSnapshot.position := {| GeoPoint.lat := la; GeoPoint.lng := ln |};
              LocationSnapshot.timestamp := ts';
              LocationSnapshot.etaMinutes := _estimate_eta_minutes None |}.
Proof.
  exact (lookup_returns_what_was_sent Sample.raw_O1_ist Sample.upd_O1
           _LOCATION_STORE eq_refl).
Defined.

(** ** The estimator on its own *)

(** X15: the estimator, given any speed at all: it returns null for every
    speed that is a number not above 0, negative ones included, and for
    minus infinity; for every other speed, NaN and plus infinity included,
    it returns 10.  It never returns anything else. *)
Theorem estimate_by_value v :
  (_estimate_eta_minutes (Some v) = None
   ↔ v = S754_infinity true ∨ ∃ q, PyFloat.to_Q v = Some q ∧ Qle q (inject_Z 0))
  ∧ (_estimate_eta_minutes (Some v) = None ∨ _estimate_eta_minutes (Some v) = Some 10).
Proof.
  unfold _estimate_eta_minutes, PyFloat.le_int. split.
  - destruct (PyFloat.to_Q v) as [q|] eqn:Hq.
    + rewrite (compare_int_exact v q 0 Hq).
      assert (v ≠ S754_infinity true) as Hinf by (intros ->; done).
      pose proof (Qle_alt q (inject_Z 0)) as Hle.
      destruct (Qcompare q (inject_Z 0)); split; try done.
      * intros _. right. exists q. split; [done|]. by apply Hle.
      * intros _. right. exists q. split; [done|]. by apply Hle.
      * intros [?|(q' & [= <-] & Hq')]; [done|]. by apply Hle in Hq'.
    + destruct v as [s|[]| |s m e]; try done; cbn.
      * split; [by left | done].
      * split; [done|]. intros [[=]|(q' & [=] & _)].
      * split; [done|]. intros [[=]|(q' & [=] & _)].
  - destruct (PyFloat.compare_int v 0) as [[]|]; auto.
Qed.

(** ** Submissions as JSON: numbers that cannot be coerced *)


Lemma coerce_inr json raw :
  coerce json = inr raw →
  Body.orderId raw = Json.orderId json
  ∧ Body.courierId raw = Json.courierId json
  ∧ match Json.position json with
    | None => Body.position raw = None
    | Some g =>
        ∃ la ln, coerce_float (Json.lat g) = inr la
                 ∧ coerce_float (Json.lng g) = inr ln
                 ∧ Body.position raw = Some {| Body.lat := la; Body.lng := ln |}
    end
  ∧ coerce_float (Json.bearing json) = inr (Body.bearing raw)
  ∧ coerce_float (Json.speedMps json) = inr (Body.speedMps raw)
  ∧ Body.timestamp raw = Json.timestamp json.
Proof.
  unfold coerce.
  destruct (coerce_float (Json.bearing json)) as [e|b] eqn:Hb;
    destruct (coerce_float (Json.speedMps json)) as [e'|s] eqn:Hs;
    destruct (Json.position json) as [g|]; try done;
    try (unfold coerce_GeoPoint;
         destruct (coerce_float (Json.lat g)) as [e1|la]; try done;
         destruct (coerce_float (Json.lng g)) as [e2|ln]; try done);
    intros [= <-]; cbn; repeat split; eauto.
Qed.

Lemma submit_coerced json raw (st : store) :
  coerce json = inr raw → submit json st = app (POST_location_updates raw) st.
Proof. unfold submit. by intros ->. Qed.

Lemma submit_raised json e (st : store) :
  coerce json = inl e →
  submit json st = ({| status_code := 500; body := InternalServerError |}, st).
Proof. unfold submit. by intros ->. Qed.

Lemma coerce_float_Some n x : float_validator n = inr x → coerce_float (Some n) = inr (Some x).
Proof. cbn. by intros ->. Qed.

Lemma coerce_complete oid cid nla nln nb ns la ln b s ts :
  float_validator nla = inr la → float_validator nln = inr ln →
  coerce_float nb = inr b → coerce_float ns = inr s →
  coerce {| Json.orderId := Some oid; Json.courierId := Some cid;
            Json.position := Some {| Json.lat := Some nla; Json.lng := Some nln |};
            Json.bearing := nb; Json.speedMps := ns; Json.timestamp := Some ts |}
  = inr {| Body.orderId := Some oid; Body.courierId := Some cid;
           Body.position := Some {| Body.lat := Some la; Body.lng := Some ln |};
           Body.bearing := b; Body.speedMps := s; Body.timestamp := Some ts |}.
Proof.
  intros Hla Hln Hb Hs. unfold coerce, coerce_GeoPoint.
  cbn [Json.orderId Json.courierId Json.position Json.bearing Json.speedMps
       Json.timestamp Json.lat Json.lng].
  by rewrite (coerce_float_Some _ _ Hla), (coerce_float_Some _ _ Hln), Hb, Hs.
Qed.


(** The two submissions, served: both are out of range, both get 500, and
    neither is stored. *)
Lemma unconvertible_submissions :
  number_within (-90) 90 (Float Sample.f91) = false
  ∧ submit Sample.json_lat_91_before_min _LOCATION_STORE
    = ({| status_code := 500; body := InternalServerError |}, _LOCATION_STORE)
  ∧ number_within (-90) 90 (Int (10 ^ 400)) = false
  ∧ submit Sample.json_lat_huge _LOCATION_STORE
    = ({| status_code := 500; body := InternalServerError |}, _LOCATION_STORE).
Proof. repeat split; vm_compute; reflexivity. Qed.



(** The ends of the ranges sent as JSON integers are accepted, and the
    scenario of the specification too. *)
Lemma json_examples :
  (submit Sample.json_ends _LOCATION_STORE).1 = accepted
  ∧ (submit Sample.json_O1 _LOCATION_STORE).1 = accepted
  ∧ (submit Sample.json_bearing_huge _LOCATION_STORE).1
    = {| status_code := 500; body := InternalServerError |}.
Proof. repeat split; vm_compute; reflexivity. Qed.



(** X6: a submission answered with 422 always carries at least one field
    error, and the store is left as it was. *)
Theorem unprocessable_lists_an_error json (st : store) :
  status_code (submit json st).1 = 422 →
  ∃ errs, errs ≠ [] ∧ submit json st = (unprocessable errs, st).
Proof.
  unfold submit. destruct (coerce json) as [e|raw]; [done|].
  cbn [app]. destruct (LocationUpdate.validate raw) as [u|errs|e] eqn:Hv; try done.
  intros _. exists errs. split; [|done]. by apply (validate_Invalid_nonempty raw).
Qed.

Lemma unprocessable_lists_an_error_witness :
  ∃ errs, errs ≠ []
    ∧ submit Sample.json_lat_91 _LOCATION_STORE = (unprocessable errs, _LOCATION_STORE).
Proof.
  apply (unprocessable_lists_an_error Sample.json_lat_91 _LOCATION_STORE).
  vm_compute. reflexivity.
Defined.

(** X9: the courier and the bearing of an update leave no trace: a body
    that names a courier, sent again with any other courier and any other
    bearing, gets the same answer and leaves the same store, as long as
    both bearings are absent or numbers that are coerced to doubles. *)
Theorem courier_and_bearing_leave_no_trace json courierId bearing (st : store) :
  is_Some (Json.courierId json) →
  converts (Json.bearing json) →
  converts bearing →
  submit (resent_json json courierId bearing) st = submit json st.
Proof.
  intros Hc [b Hb] [b' Hb'].
  destruct json as [o c p nb ns t]. cbn in Hc, Hb.
  unfold submit, coerce, resent_json.
  cbn [Json.orderId Json.courierId Json.position Json.bearing Json.speedMps
       Json.timestamp].
  rewrite Hb, Hb'.
  destruct (match p with
            | Some g => match coerce_GeoPoint g with
                        | inl e => inl e
                        | inr g' => inr (Some g')
                        end
            | None => inr None
            end) as [e|p']; [done|].
  destruct (coerce_float ns) as [e|s]; [done|].
  apply (coerced_courier_and_bearing
           {| Body.orderId := o; Body.courierId := c; Body.position := p';
              Body.bearing := b; Body.speedMps := s; Body.timestamp := t |}
           courierId b' st Hc).
Qed.

Lemma courier_and_bearing_leave_no_trace_witness :
  submit (resent_json Sample.json_O1 "C2" (Some (Int 270))) _LOCATION_STORE
  = submit Sample.json_O1 _LOCATION_STORE.
Proof.
  apply (courier_and_bearing_leave_no_trace Sample.json_O1 "C2" (Some (Int 270))
           _LOCATION_STORE).
  - eexists. reflexivity.
  - eexists. reflexivity.
  - eexists. vm_compute. reflexivity.
Defined.

(** X13: a submission is accepted exactly when orderId and courierId are
    present, the position has a latitude and a longitude that are coerced
    to doubles within [-90, 90] and [-180, 180], the bearing is absent or
    coerced to a double, the speed is absent or coerced to a double that is
    at least 0, and the timestamp is present and can be normalized.  A
    missing required key, or a number beyond the doubles, alone is enough
    for it not to be accepted. *)
Theorem accepted_iff json (st : store) :
  (submit json st).1 = accepted
  ↔ is_Some (Json.orderId json)
    ∧ is_Some (Json.courierId json)
    ∧ (∃ nla nln la ln,
         Json.position json = Some {| Json.lat := Some nla; Json.lng := Some nln |}
         ∧ float_validator nla = inr la ∧ float_validator nln = inr ln
         ∧ within (-90) 90 la = true ∧ within (-180) 180 ln = true)
    ∧ converts (Json.bearing json)
    ∧ (∃ s, coerce_float (Json.speedMps json) = inr s ∧ speed_ok s = true)
    ∧ ∃ ts ts', Json.timestamp json = Some ts
                ∧ LocationUpdate.ensure_timezone ts = inr ts'.
Proof.
  split.
  - destruct (coerce json) as [e|raw] eqn:Hc;
      [by rewrite (submit_raised json e st Hc)|].
    rewrite (submit_coerced json raw st Hc).
    intros (Ho & Hcid & (la & ln & Hpos & Hla & Hln) & Hs & ts & ts' & Hts & Hens)
      %coerced_accepted_iff.
    destruct (coerce_inr json raw Hc) as (Ho' & Hc' & Hp & Hb & Hsp & Hts').
    split; [by rewrite <- Ho'|]. split; [by rewrite <- Hc'|].
    split; [|split; [by eexists|split; [by eexists|]]].
    + destruct (Json.position json) as [[nla nln]|]; [|congruence].
      destruct Hp as (la' & ln' & Hla' & Hln' & Hpos').
      rewrite Hpos in Hpos'. injection Hpos' as <- <-. cbn in Hla', Hln'.
      destruct nla as [nla|]; [|done]. destruct nln as [nln|]; [|done].
      cbn in Hla', Hln'.
      destruct (float_validator nla) as [?|xla] eqn:Ela; [done|].
      destruct (float_validator nln) as [?|xln] eqn:Eln; [done|].
      injection Hla' as ->. injection Hln' as ->.
      by exists nla, nln, la, ln.
    + exists ts, ts'. by rewrite <- Hts'.
  - intros ([o Ho] & [c Hc] & (nla & nln & la & ln & Hp & Hla & Hln & Hwla & Hwln)
            & [b Hb] & (s & Hs & Hok) & ts & ts' & Hts & Hens).
    destruct json as [o' c' p nb ns t]. cbn in Ho, Hc, Hp, Hb, Hs, Hts.
    subst o' c' p t.
    rewrite (submit_coerced _ _ st (coerce_complete o c nla nln nb ns la ln b s ts
                                      Hla Hln Hb Hs)).
    apply coerced_accepted_iff. cbn.
    split; [by eexists|]. split; [by eexists|].
    split; [by exists la, ln|]. split; [done|]. by exists ts, ts'.
Qed.
